(** * gormuuid: a UUID primary key for GORM models

    A shallow embedding of [src/uuid.go] (package [gormuuid]) and of the part
    of [github.com/google/uuid] that it calls, followed by the properties of
    the pre-insert hook [BeforeCreate] and of the accessor [UUID].

    Layout of the development:
    - [UuidPackage]: the interface through which [src/uuid.go] sees the
      imported package [uuid] (three calls: [New], [MarshalBinary],
      [FromBytes]);
    - [UUID], [UUID.BeforeCreate], [UUID.UUID]: the code of [src/uuid.go],
      written once over any [UuidPackage];
    - [Module uuid]: the imported package itself, as a family of
      [UuidPackage] instances [google_uuid fault];
    - [Call], [calls]: sequences of calls of the two methods on one record;
    - the theorems, first the ones that hold over every package, then the ones
      that need [google_uuid]. *)

From Stdlib Require Import Strings.Byte Strings.Ascii Strings.String.
From Stdlib Require Import List PeanoNat NArith Lia.
Import ListNotations.

Set Implicit Arguments.

(* ================================================================== *)
(** ** The imported package, as an interface *)

(** [src/uuid.go] uses exactly three entry points of package [uuid]
    (lines 42 and 61).  [pkg_rand] is the state of the package's random
    reader, which [New] advances; [pkg_error] is the type of the error values
    the package creates.  [uuid.New()] has a single result (line 42 calls
    [MarshalBinary] on it directly), so a generator that cannot produce a
    value has no error to return: it panics, which is [inr p] here, [p]
    being the value it panics with.  A slice argument is passed as the bytes
    it holds: the package reads the slice it is given and does not write to
    it. *)
Class UuidPackage : Type := {
  pkg_uuid : Type;
  pkg_error : Type;
  pkg_rand : Type;
  New : pkg_rand -> (pkg_uuid + pkg_error) * pkg_rand;
  MarshalBinary : pkg_uuid -> list byte * option pkg_error;
  FromBytes : list byte -> pkg_uuid * option pkg_error
}.

(* ================================================================== *)
(** ** [src/uuid.go] *)

(** Go's [error] values as [gormuuid] can meet them: [nil] is [None] at type
    [option error]; [ErrorNoUUID] is the package-level sentinel of line 28,
    made by [errors.New], which is a pointer of its own and therefore equal
    to no error made anywhere else; [PkgError e] is an error that came out of
    package [uuid] (which cannot mention [ErrorNoUUID]: [gormuuid] imports
    [uuid], not the other way round). *)
Inductive error {P : UuidPackage} : Type :=
| ErrorNoUUID : error
| PkgError : pkg_error -> error.

(** The text of the sentinel (line 28). *)
Definition ErrorNoUUID_text : string := "UUID has not been created".

(** [type UUID struct { ID []byte }] (lines 32-34).  A nil slice and an empty
    slice both have [len] 0 and are both [[]] here. *)
Record UUID : Type := { ID : list byte }.

(** What a method with receiver [u *UUID] can read and write: the struct
    behind the pointer, and the random reader of package [uuid]. *)
Record World {P : UuidPackage} : Type := {
  self : UUID;
  rander : pkg_rand
}.

(** How a call of [BeforeCreate] ends: it returns its [error] result, or a
    panic raised inside [uuid.New()] unwinds through it (the method has no
    [recover]). *)
Inductive result {P : UuidPackage} : Type :=
| Return : option error -> result
| Panic : pkg_error -> result.

Module UUID.

(** [func (u *UUID) BeforeCreate() (err error)] (lines 37-49).  The short
    declaration of line 42 assigns the named result [err], it does not shadow
    it, so the bare [return] of line 44 returns the package's error.  When
    [uuid.New()] panics, lines 43-47 are not reached. *)
Definition BeforeCreate {P : UuidPackage} (w : World) : result * World :=
  if Nat.eqb (length (ID (self w))) 16 then (Return None, w)
  else
    let (g, r) := New (rander w) in
    match g with
    | inr p => (Panic p, {| self := self w; rander := r |})
    | inl v =>
        let (b, err) := MarshalBinary v in
        match err with
        | Some e => (Return (Some (PkgError e)),
                     {| self := self w; rander := r |})
        | None => (Return None, {| self := {| ID := b |}; rander := r |})
        end
    end.

(** [func (u *UUID) UUID() (uuid.UUID, error)] (lines 60-62). *)
Definition UUID {P : UuidPackage} (w : World)
  : (pkg_uuid * option error) * World :=
  let (v, err) := FromBytes (ID (self w)) in
  ((v, option_map PkgError err), w).

End UUID.

(* ================================================================== *)
(** ** Package [uuid] *)

Module uuid.

(** Modelled from the spec: package [github.com/google/uuid], imported at
    line 23 of [src/uuid.go], is not part of [src/].  The definitions below
    follow section 6 (generate-random-v4-uuid, marshal to 16 bytes failing
    only on internal encoding faults, unmarshal failing when the length is
    not 16), section 4.1 (122 random bits plus the fixed version and variant
    bits; the big-endian 16-byte layout), sections 4.1 and 7 (the library may
    fail to produce or to encode a value) and the glossary (the 36-character
    hyphenated hexadecimal string), under the names the package gives these
    operations.  The two failures are left open as the spec leaves them: the
    random reader may fail at any read, and the marshaller reports a fault on
    the values a parameter [fault] singles out ([fun _ => false] is a
    marshaller that never fails). *)

(** [type UUID [16]byte]: a fixed array, one field per index. *)
Record UUID : Type := Array16 {
  b0 : byte; b1 : byte; b2 : byte; b3 : byte;
  b4 : byte; b5 : byte; b6 : byte; b7 : byte;
  b8 : byte; b9 : byte; b10 : byte; b11 : byte;
  b12 : byte; b13 : byte; b14 : byte; b15 : byte
}.

(** [uuid[:]] *)
Definition bytes (u : UUID) : list byte :=
  [b0 u; b1 u; b2 u; b3 u; b4 u; b5 u; b6 u; b7 u;
   b8 u; b9 u; b10 u; b11 u; b12 u; b13 u; b14 u; b15 u].

(** [var Nil UUID]: the zero value. *)
Definition Nil : UUID :=
  Array16 x00 x00 x00 x00 x00 x00 x00 x00 x00 x00 x00 x00 x00 x00 x00 x00.

(** The errors that can come out of the three entry points:
    [fmt.Errorf("invalid UUID (got %d bytes)", len(data))] from the
    unmarshaller, the error of a random reader that could not deliver 16
    bytes, and the marshaller's internal encoding fault. *)
Inductive Error : Type :=
| InvalidLength (got : nat)
| ReaderFailed
| EncodingFault.

(** Byte arithmetic of Go's [uint8], through [N]. *)
Definition byte_of_N (n : N) : byte :=
  match Byte.of_N (n mod 256) with Some b => b | None => x00 end.
Definition band (a : byte) (m : N) : byte := byte_of_N (N.land (Byte.to_N a) m).
Definition bor (a : byte) (m : N) : byte := byte_of_N (N.lor (Byte.to_N a) m).
Definition bshr (a : byte) (k : N) : N := N.shiftr (Byte.to_N a) k.

(** The random reader: what each of its reads will do, in order; a read
    delivers a block of 16 bytes or fails. *)
Definition Reader : Type := nat -> option UUID.

(** [NewRandomFromReader]: fill the array from the reader and, when that
    worked, stamp the version and variant bits; otherwise [Nil] and the
    reader's error. *)
Definition NewRandomFromReader (r : Reader) : (UUID * option Error) * Reader :=
  match r 0 with
  | None => ((Nil, Some ReaderFailed), fun n => r (S n))
  | Some u =>
      let u6 := bor (band (b6 u) 15) 64 in   (* uuid[6] = (uuid[6] & 0x0f) | 0x40 *)
      let u8 := bor (band (b8 u) 63) 128 in  (* uuid[8] = (uuid[8] & 0x3f) | 0x80 *)
      ((Array16 (b0 u) (b1 u) (b2 u) (b3 u) (b4 u) (b5 u) u6 (b7 u)
                u8 (b9 u) (b10 u) (b11 u) (b12 u) (b13 u) (b14 u) (b15 u),
        None),
       fun n => r (S n))
  end.

(** [New]: a fresh random (version 4) UUID, or a panic with the error of
    [NewRandomFromReader]. *)
Definition New (r : Reader) : (UUID + Error) * Reader :=
  match NewRandomFromReader r with
  | ((u, None), r') => (inl u, r')
  | ((_, Some e), r') => (inr e, r')
  end.

(** [func (uuid UUID) MarshalBinary() ([]byte, error)]: the 16 bytes
    [uuid[:]], and an error on an internal encoding fault. *)
Definition MarshalBinary (fault : UUID -> bool) (u : UUID)
  : list byte * option Error :=
  (bytes u, if fault u then Some EncodingFault else None).

(** [func (uuid *UUID) UnmarshalBinary(data []byte) error]: refuse any length
    but 16, otherwise [copy(uuid[:], data)]. *)
Definition UnmarshalBinary (u : UUID) (data : list byte) : UUID * option Error :=
  match data with
  | [a0; a1; a2; a3; a4; a5; a6; a7; a8; a9; a10; a11; a12; a13; a14; a15] =>
      (Array16 a0 a1 a2 a3 a4 a5 a6 a7 a8 a9 a10 a11 a12 a13 a14 a15, None)
  | _ => (u, Some (InvalidLength (length data)))
  end.

(** [func FromBytes(b []byte) (uuid UUID, err error)]: unmarshal into a zero
    array. *)
Definition FromBytes (b : list byte) : UUID * option Error :=
  UnmarshalBinary Nil b.

(** [type Version byte] and [func (uuid UUID) Version() Version]. *)
Definition Version (u : UUID) : N := bshr (b6 u) 4.

(** [type Variant byte] and [func (uuid UUID) Variant() Variant]. *)
Inductive Variant_t : Type := Invalid | RFC4122 | Reserved | Microsoft | Future.

Definition Variant (u : UUID) : Variant_t :=
  if N.eqb (Byte.to_N (band (b8 u) 192)) 128 then RFC4122
  else if N.eqb (Byte.to_N (band (b8 u) 224)) 192 then Microsoft
  else if N.eqb (Byte.to_N (band (b8 u) 224)) 224 then Future
  else Reserved.

(** [encoding/hex]: [hextable] and [Encode]. *)
Definition hextable : list ascii :=
  list_ascii_of_string "0123456789abcdef".

Definition hexdigit (n : N) : ascii := nth (N.to_nat n) hextable "0"%char.

Fixpoint hex_Encode (src : list byte) : string :=
  match src with
  | [] => EmptyString
  | v :: rest =>
      String (hexdigit (bshr v 4))
        (String (hexdigit (Byte.to_N (band v 15))) (hex_Encode rest))
  end.

(** [func (uuid UUID) String() string], through [encodeHex]: the five groups
    [uuid[:4]], [uuid[4:6]], [uuid[6:8]], [uuid[8:10]], [uuid[10:]], separated
    by ['-']. *)
Definition String (u : UUID) : string :=
  (hex_Encode (firstn 4 (bytes u)) ++ "-" ++
   hex_Encode (firstn 2 (skipn 4 (bytes u))) ++ "-" ++
   hex_Encode (firstn 2 (skipn 6 (bytes u))) ++ "-" ++
   hex_Encode (firstn 2 (skipn 8 (bytes u))) ++ "-" ++
   hex_Encode (skipn 10 (bytes u)))%string.

End uuid.

(** Package [uuid] as [src/uuid.go] sees it, for each choice of the values on
    which its marshaller reports a fault. *)
Definition google_uuid (fault : uuid.UUID -> bool) : UuidPackage := {|
  pkg_uuid := uuid.UUID;
  pkg_error := uuid.Error;
  pkg_rand := uuid.Reader;
  New := uuid.New;
  MarshalBinary := uuid.MarshalBinary fault;
  FromBytes := uuid.FromBytes
|}.

(** A marshaller that never reports a fault, and one that always does. *)
Definition no_fault : uuid.UUID -> bool := fun _ => false.
Definition always_fault : uuid.UUID -> bool := fun _ => true.

(** The package with the marshaller that always reports a fault. *)
Definition faulty_uuid : UuidPackage := google_uuid always_fault.

(** The block [k, k+1, ..., k+15] (mod 256); a reader that delivers it at
    its [k]-th read; a reader whose reads all fail.  Used for the concrete
    runs below. *)
Definition counting_block (k : nat) : uuid.UUID :=
  let c i := uuid.byte_of_N (N.of_nat (k + i)) in
  uuid.Array16 (c 0) (c 1) (c 2) (c 3) (c 4) (c 5) (c 6) (c 7)
               (c 8) (c 9) (c 10) (c 11) (c 12) (c 13) (c 14) (c 15).

Definition counting_reader : uuid.Reader := fun k => Some (counting_block k).

Definition failing_reader : uuid.Reader := fun _ => None.

Definition world (fault : uuid.UUID -> bool) (id : list byte) (r : uuid.Reader)
  : @World (google_uuid fault) :=
  @Build_World (google_uuid fault) {| ID := id |} r.

(** The field of a record whose caller chose the all-zero identifier. *)
Definition zero16 : list byte := repeat x00 16.

(* ================================================================== *)
(** ** The textual form, in the spec's words *)

(** The glossary's "36-character hyphenated hexadecimal string" with the
    grouping of section 8's pattern [xxxxxxxx-xxxx-xxxx-xxxx-xxxxxxxxxxxx]:
    write every byte as two lower-case hexadecimal digits, high digit first,
    and put a hyphen after the 8th, 12th, 16th and 20th digit. *)
Definition nibble_char (n : N) : ascii :=
  if N.ltb n 10 then ascii_of_N (48 + n) else ascii_of_N (87 + n).

Definition hex_digits (B : list byte) : list ascii :=
  flat_map (fun b => [nibble_char (Byte.to_N b / 16);
                      nibble_char (Byte.to_N b mod 16)]) B.

Definition textual_rendering (B : list byte) : string :=
  let d := hex_digits B in
  string_of_list_ascii
    (firstn 8 d ++ "-"%char ::
     firstn 4 (skipn 8 d) ++ "-"%char ::
     firstn 4 (skipn 12 d) ++ "-"%char ::
     firstn 4 (skipn 16 d) ++ "-"%char ::
     skipn 20 d).

(** Section 8's pattern [xxxxxxxx-xxxx-4xxx-[89ab]xxx-xxxxxxxxxxxx] at the two
    positions it constrains. *)
Definition v4_pattern (s : string) : Prop :=
  String.length s = 36 /\
  String.get 14 s = Some "4"%char /\
  In (String.get 19 s) [Some "8"%char; Some "9"%char; Some "a"%char; Some "b"%char].

(* ================================================================== *)
(** ** A record in use *)

(** What the code holding a record can do with it through [src/uuid.go]:
    call the hook or the accessor, in any order, any number of times.
    [call] keeps how a call ended and the state it left; [calls] runs a
    sequence of calls from left to right and collects how they ended.  A
    panic ends the sequence: the calls after it are not made. *)
Inductive Call : Type := CallBeforeCreate | CallUUID.

Definition call {P : UuidPackage} (c : Call) (w : World) : result * World :=
  match c with
  | CallBeforeCreate => UUID.BeforeCreate w
  | CallUUID => (Return (snd (fst (UUID.UUID w))), snd (UUID.UUID w))
  end.

Fixpoint calls {P : UuidPackage} (cs : list Call) (w : World)
  : list result * World :=
  match cs with
  | [] => ([], w)
  | c :: rest =>
      match fst (call c w) with
      | Panic p => ([Panic p], snd (call c w))
      | Return e =>
          let (rs, w') := calls rest (snd (call c w)) in
          (Return e :: rs, w')
      end
  end.

(** The hook calls of a sequence, the accessor calls dropped. *)
Definition hooks_only (cs : list Call) : list Call :=
  filter (fun c => match c with CallBeforeCreate => true | CallUUID => false end) cs.

(** The two ways [uuid.New().MarshalBinary()] (line 42) can fail on the
    state [w], each with the way [BeforeCreate] then ends: the generator
    panics with [p], or the marshaller returns the error [e]. *)
Inductive library_failure {P : UuidPackage} (w : World) : result -> Prop :=
| generator_failed (p : pkg_error) :
    fst (New (rander w)) = inr p ->
    library_failure w (Panic p)
| marshaller_failed (v : pkg_uuid) (e : pkg_error) :
    fst (New (rander w)) = inl v ->
    snd (MarshalBinary v) = Some e ->
    library_failure w (Return (Some (PkgError e))).



(* ================================================================== *)
(** ** Properties that hold over every package *)

Section AnyPackage.

Context {P : UuidPackage}.

Lemma length_16_eqb (l : list byte) :
  length l = 16 -> Nat.eqb (length l) 16 = true.
Proof. intros ->. reflexivity. Qed.

Lemma length_not_16_eqb (l : list byte) :
  length l <> 16 -> Nat.eqb (length l) 16 = false.
Proof. intro H. apply Nat.eqb_neq. exact H. Qed.

(** The hook on a populated field: nothing is called, nothing is written. *)
Lemma BeforeCreate_populated (w : World) :
  length (ID (self w)) = 16 -> UUID.BeforeCreate w = (Return None, w).
Proof.
  intro H. unfold UUID.BeforeCreate.
  rewrite (length_16_eqb _ H). reflexivity.
Qed.

(** The hook on any other field, spelled out on the outcome of [uuid.New()]
    and the two results of [MarshalBinary]. *)
Lemma BeforeCreate_unpopulated (w : World) :
  length (ID (self w)) <> 16 ->
  UUID.BeforeCreate w =
    match fst (New (rander w)) with
    | inr p => (Panic p, {| self := self w; rander := snd (New (rander w)) |})
    | inl v =>
        match snd (MarshalBinary v) with
        | Some e => (Return (Some (PkgError e)),
                     {| self := self w; rander := snd (New (rander w)) |})
        | None => (Return None,
                   {| self := {| ID := fst (MarshalBinary v) |};
                      rander := snd (New (rander w)) |})
        end
    end.
Proof.
  intro H. unfold UUID.BeforeCreate.
  rewrite (length_not_16_eqb _ H).
  destruct (New (rander w)) as [[v|p] r]; simpl; [|reflexivity].
  destruct (MarshalBinary v) as [b [e|]]; reflexivity.
Qed.

(** The accessor, spelled out on the two results of [uuid.FromBytes]. *)
Lemma UUID_unfold (w : World) :
  UUID.UUID w =
    ((fst (FromBytes (ID (self w))),
      option_map PkgError (snd (FromBytes (ID (self w))))), w).
Proof.
  unfold UUID.UUID. destruct (FromBytes (ID (self w))); reflexivity.
Qed.

(** Whatever the package does, the accessor's error is never the sentinel
    [ErrorNoUUID]: it is [nil] or an error of the package. *)
Lemma UUID_never_ErrorNoUUID (w : World) :
  snd (fst (UUID.UUID w)) <> Some ErrorNoUUID.
Proof.
  rewrite UUID_unfold. simpl.
  destruct (snd (FromBytes (ID (self w)))); simpl; discriminate.
Qed.

Lemma BeforeCreate_never_ErrorNoUUID (w : World) :
  fst (UUID.BeforeCreate w) <> Return (Some ErrorNoUUID).
Proof.
  destruct (Nat.eq_dec (length (ID (self w))) 16) as [H|H].
  - rewrite (BeforeCreate_populated w H). discriminate.
  - rewrite (BeforeCreate_unpopulated w H).
    destruct (fst (New (rander w))) as [v|p]; [|discriminate].
    destruct (snd (MarshalBinary v)); discriminate.
Qed.

Lemma call_never_ErrorNoUUID (c : Call) (w : World) :
  fst (call c w) <> Return (Some ErrorNoUUID).
Proof.
  destruct c; cbn [call fst].
  - apply BeforeCreate_never_ErrorNoUUID.
  - intro E. injection E as E. exact (UUID_never_ErrorNoUUID w E).
Qed.

Lemma call_UUID_keeps_state (w : World) : snd (call CallUUID w) = w.
Proof. unfold call. rewrite UUID_unfold. reflexivity. Qed.

Lemma calls_cons_return (c : Call) (cs : list Call) (w : World)
  (e : option error) :
  fst (call c w) = Return e ->
  calls (c :: cs) w =
    (Return e :: fst (calls cs (snd (call c w))),
     snd (calls cs (snd (call c w)))).
Proof.
  intro E. cbn [calls]. rewrite E.
  destruct (calls cs (snd (call c w))). reflexivity.
Qed.

Lemma calls_cons_panic (c : Call) (cs : list Call) (w : World)
  (p : pkg_error) :
  fst (call c w) = Panic p ->
  calls (c :: cs) w = ([Panic p], snd (call c w)).
Proof. intro E. cbn [calls]. rewrite E. reflexivity. Qed.

(** C3. When the field holds 16 bytes, [BeforeCreate] returns [nil] and
    leaves the field and the random reader as they were; run again on the
    state it left, it does the same, so on populated fields the hook is
    idempotent. *)
Theorem BeforeCreate_respects_populated (w : World)
  (Hlen : length (ID (self w)) = 16) :
  UUID.BeforeCreate w = (Return None, w) /\
  UUID.BeforeCreate (snd (UUID.BeforeCreate w)) = UUID.BeforeCreate w.
Proof.
  pose proof (BeforeCreate_populated w Hlen) as E.
  split; [exact E|]. rewrite E. simpl. exact E.
Qed.

(** C5 (amended). When the field is not populated and
    [uuid.New().MarshalBinary()] fails, the field is as it was before the
    call, and [BeforeCreate] ends the way the failure dictates: when the
    marshaller returns an error [e] it returns that very error; when the
    generator fails it returns nothing, the generator's panic unwinding
    through it. *)
Theorem BeforeCreate_propagates_error (w : World) (res : result)
  (Hlen : length (ID (self w)) <> 16)
  (Hfail : library_failure w res) :
  fst (UUID.BeforeCreate w) = res /\
  self (snd (UUID.BeforeCreate w)) = self w.
Proof.
  rewrite (BeforeCreate_unpopulated w Hlen).
  destruct Hfail as [p Hp | v e Hv He].
  - rewrite Hp. split; reflexivity.
  - rewrite Hv, He. split; reflexivity.
Qed.

(** C8. The accessor [UUID] hands back the state it was given: the field and
    the random reader are untouched, whatever the field holds. *)
Theorem UUID_no_side_effects (w : World) :
  snd (UUID.UUID w) = w.
Proof. rewrite UUID_unfold. reflexivity. Qed.

(** X1. [BeforeCreate] returns an error exactly when the field does not hold
    16 bytes, [uuid.New()] produces a value and [MarshalBinary] fails on it;
    the error returned is then the marshaller's. *)
Theorem BeforeCreate_error_condition (w : World) (err : error) :
  fst (UUID.BeforeCreate w) = Return (Some err) <->
  (Nat.eqb (length (ID (self w))) 16 = false /\
   exists v e, fst (New (rander w)) = inl v /\
               snd (MarshalBinary v) = Some e /\
               err = PkgError e).
Proof.
  destruct (Nat.eq_dec (length (ID (self w))) 16) as [H|H].
  - rewrite (BeforeCreate_populated w H), (length_16_eqb _ H).
    split; [discriminate | intros [D _]; discriminate].
  - rewrite (BeforeCreate_unpopulated w H), (length_not_16_eqb _ H).
    destruct (fst (New (rander w))) as [v|p].
    + destruct (snd (MarshalBinary v)) as [e|] eqn:He; simpl.
      * split.
        -- intro E. injection E as <-. split; [reflexivity|].
           exists v, e. repeat split. exact He.
        -- intros [_ [v' [e' [Ev [E ->]]]]].
           injection Ev as <-. rewrite He in E. injection E as ->.
           reflexivity.
      * split; [discriminate|].
        intros [_ [v' [e' [Ev [E _]]]]].
        injection Ev as <-. rewrite He in E. discriminate.
    + simpl. split; [discriminate|].
      intros [_ [v' [e' [Ev _]]]]. discriminate.
Qed.

(** X2. In no sequence of calls on a record does any call return the
    sentinel [ErrorNoUUID]: the variable of line 28 is never the result of
    [BeforeCreate] nor of [UUID]. *)
Theorem ErrorNoUUID_never_returned (cs : list Call) (w : World) :
  ~ In (Return (Some ErrorNoUUID)) (fst (calls cs w)).
Proof.
  revert w. induction cs as [|c cs IH]; intros w.
  - simpl. tauto.
  - destruct (fst (call c w)) as [e|p] eqn:E.
    + rewrite (calls_cons_return c cs w E). cbn [fst In]. intros [D|D].
      * apply (call_never_ErrorNoUUID c w). rewrite E. exact D.
      * exact (IH _ D).
    + rewrite (calls_cons_panic c cs w E). cbn [fst In].
      intros [D|[]]. discriminate.
Qed.

(** X3. Once the field holds 16 bytes, no sequence of calls changes it: the
    state after the sequence, field and random reader, is the state before
    it. *)
Theorem populated_record_is_stable (cs : list Call) (w : World)
  (Hlen : length (ID (self w)) = 16) :
  snd (calls cs w) = w.
Proof.
  induction cs as [|c cs IH].
  - reflexivity.
  - assert (E : exists e, call c w = (Return e, w)).
    { destruct c; cbn [call].
      - exists None. apply BeforeCreate_populated. exact Hlen.
      - eexists. rewrite UUID_unfold. reflexivity. }
    destruct E as [e E].
    rewrite (calls_cons_return c cs w (e := e)); rewrite E; [|reflexivity].
    cbn [snd]. exact IH.
Qed.

(** X4. Calls of the accessor do not matter to the state: a sequence of
    calls leaves the record and the random reader exactly as the same
    sequence without its [UUID] calls does. *)
Theorem accessor_calls_are_transparent (cs : list Call) (w : World) :
  snd (calls cs w) = snd (calls (hooks_only cs) w).
Proof.
  revert w. induction cs as [|c cs IH]; intros w.
  - reflexivity.
  - destruct c.
    + change (hooks_only (CallBeforeCreate :: cs))
        with (CallBeforeCreate :: hooks_only cs).
      destruct (fst (call CallBeforeCreate w)) as [e|p] eqn:E.
      * rewrite !(calls_cons_return _ _ w E). cbn [snd]. apply IH.
      * rewrite !(calls_cons_panic _ _ w E). reflexivity.
    + change (hooks_only (CallUUID :: cs)) with (hooks_only cs).
      rewrite (calls_cons_return CallUUID cs w
                 (e := snd (fst (UUID.UUID w)))); [|reflexivity].
      cbn [snd]. rewrite call_UUID_keeps_state. apply IH.
Qed.

End AnyPackage.

(* ================================================================== *)
(** ** Properties of package [uuid] *)

(** A slice of 16 bytes is a list of 16 elements. *)
Ltac sixteen B :=
  do 17 (try (destruct B as [|? B]; simpl in *; try discriminate; try lia)).

Lemma bytes_length (v : uuid.UUID) : length (uuid.bytes v) = 16.
Proof. reflexivity. Qed.

Lemma bytes_inj (u v : uuid.UUID) : uuid.bytes u = uuid.bytes v -> u = v.
Proof. destruct u, v. unfold uuid.bytes. simpl. congruence. Qed.

Lemma FromBytes_bytes (v : uuid.UUID) :
  uuid.FromBytes (uuid.bytes v) = (v, None).
Proof. destruct v; reflexivity. Qed.

Lemma FromBytes_16 (B : list byte) :
  length B = 16 ->
  exists v, uuid.FromBytes B = (v, None) /\ uuid.bytes v = B.
Proof.
  intro H. sixteen B.
  eexists. split; reflexivity.
Qed.

Lemma FromBytes_not_16 (B : list byte) :
  length B <> 16 ->
  uuid.FromBytes B = (uuid.Nil, Some (uuid.InvalidLength (length B))).
Proof.
  intro H. sixteen B; try reflexivity.
Qed.

(** The table lookup of [encoding/hex] and the digit arithmetic of the spec's
    wording agree on both halves of every byte. *)
Lemma hexdigit_high (b : byte) :
  uuid.hexdigit (uuid.bshr b 4) = nibble_char (Byte.to_N b / 16).
Proof. destruct b; vm_compute; reflexivity. Qed.

Lemma hexdigit_low (b : byte) :
  uuid.hexdigit (Byte.to_N (uuid.band b 15)) = nibble_char (Byte.to_N b mod 16).
Proof. destruct b; vm_compute; reflexivity. Qed.

Lemma String_textual_rendering (v : uuid.UUID) :
  uuid.String v = textual_rendering (uuid.bytes v).
Proof.
  destruct v. unfold uuid.String, textual_rendering, hex_digits, uuid.bytes.
  cbn [uuid.b0 uuid.b1 uuid.b2 uuid.b3 uuid.b4 uuid.b5 uuid.b6 uuid.b7
       uuid.b8 uuid.b9 uuid.b10 uuid.b11 uuid.b12 uuid.b13 uuid.b14 uuid.b15
       firstn skipn uuid.hex_Encode flat_map app String.append
       string_of_list_ascii].
  rewrite !hexdigit_high, !hexdigit_low. reflexivity.
Qed.

Lemma String_length (v : uuid.UUID) : String.length (uuid.String v) = 36.
Proof. destruct v; reflexivity. Qed.

(** The two stamps of [NewRandomFromReader], on every byte. *)
Lemma stamp_version (x : byte) :
  uuid.bshr (uuid.bor (uuid.band x 15) 64) 4 = 4%N.
Proof. destruct x; vm_compute; reflexivity. Qed.

Lemma stamp_variant (x : byte) :
  Byte.to_N (uuid.band (uuid.bor (uuid.band x 63) 128) 192) = 128%N.
Proof. destruct x; vm_compute; reflexivity. Qed.

Lemma stamp_variant_digit (x : byte) :
  In (uuid.hexdigit (uuid.bshr (uuid.bor (uuid.band x 63) 128) 4))
     ["8"%char; "9"%char; "a"%char; "b"%char].
Proof. destruct x; vm_compute; tauto. Qed.

(** Whether it produces a value or panics, [New] uses up one read. *)
Lemma New_reader (r : uuid.Reader) : snd (uuid.New r) = fun n => r (S n).
Proof.
  unfold uuid.New, uuid.NewRandomFromReader. destruct (r 0); reflexivity.
Qed.

(** [New] panics exactly when the read fails. *)
Lemma New_panics (r : uuid.Reader) :
  r 0 = None -> fst (uuid.New r) = inr uuid.ReaderFailed.
Proof.
  intro H. unfold uuid.New, uuid.NewRandomFromReader. rewrite H. reflexivity.
Qed.

Lemma New_produces (r : uuid.Reader) (v : uuid.UUID) :
  fst (uuid.New r) = inl v ->
  exists u, r 0 = Some u /\
    v = uuid.Array16 (uuid.b0 u) (uuid.b1 u) (uuid.b2 u) (uuid.b3 u)
          (uuid.b4 u) (uuid.b5 u) (uuid.bor (uuid.band (uuid.b6 u) 15) 64)
          (uuid.b7 u) (uuid.bor (uuid.band (uuid.b8 u) 63) 128) (uuid.b9 u)
          (uuid.b10 u) (uuid.b11 u) (uuid.b12 u) (uuid.b13 u) (uuid.b14 u)
          (uuid.b15 u).
Proof.
  unfold uuid.New, uuid.NewRandomFromReader.
  destruct (r 0) as [u|]; cbn [fst]; intro E; [|discriminate].
  injection E as <-. exists u. split; reflexivity.
Qed.

Lemma New_Version (r : uuid.Reader) (v : uuid.UUID) :
  fst (uuid.New r) = inl v -> uuid.Version v = 4%N.
Proof.
  intro H. destruct (New_produces r H) as [u [_ ->]].
  unfold uuid.Version. cbn [uuid.b6]. apply stamp_version.
Qed.

Lemma New_Variant (r : uuid.Reader) (v : uuid.UUID) :
  fst (uuid.New r) = inl v -> uuid.Variant v = uuid.RFC4122.
Proof.
  intro H. destruct (New_produces r H) as [u [_ ->]].
  unfold uuid.Variant. cbn [uuid.b8]. rewrite stamp_variant. reflexivity.
Qed.

Lemma New_String_pattern (r : uuid.Reader) (v : uuid.UUID) :
  fst (uuid.New r) = inl v -> v4_pattern (uuid.String v).
Proof.
  intro H. destruct (New_produces r H) as [u [_ ->]].
  split; [apply String_length|].
  unfold uuid.String, uuid.bytes.
  cbn [uuid.b0 uuid.b1 uuid.b2 uuid.b3 uuid.b4 uuid.b5 uuid.b6 uuid.b7
       uuid.b8 uuid.b9 uuid.b10 uuid.b11 uuid.b12 uuid.b13 uuid.b14 uuid.b15
       firstn skipn uuid.hex_Encode String.append String.get].
  rewrite stamp_version. split.
  - reflexivity.
  - pose proof (stamp_variant_digit (uuid.b8 u)) as D.
    cbn [In] in *.
    destruct D as [D|[D|[D|[D|[]]]]]; rewrite <- D; tauto.
Qed.

(** The marshaller's error is its fault flag. *)
Lemma MarshalBinary_no_fault (fault : uuid.UUID -> bool) (v : uuid.UUID) :
  snd (uuid.MarshalBinary fault v) = None <-> fault v = false.
Proof.
  unfold uuid.MarshalBinary. cbn [snd].
  destruct (fault v); split; intro H; try reflexivity; discriminate.
Qed.

(* ================================================================== *)
(** ** [src/uuid.go] over package [uuid] *)

Section Package.

Variable fault : uuid.UUID -> bool.

(** Every state is a field and a reader. *)
Lemma world_eta (w : @World (google_uuid fault)) :
  w = world fault (ID (self w)) (rander w).
Proof. destruct w as [[id] r]. reflexivity. Qed.

(** The accessor on a field of any length but 16: the zero array and the
    package's length error. *)
Lemma UUID_unpopulated (w : @World (google_uuid fault)) :
  length (ID (self w)) <> 16 ->
  fst (UUID.UUID w) =
    (uuid.Nil, Some (@PkgError (google_uuid fault) (uuid.InvalidLength (length (ID (self w)))))).
Proof.
  intro H. rewrite UUID_unfold. simpl FromBytes; cbn [fst].
  rewrite (FromBytes_not_16 _ H). reflexivity.
Qed.

(** The accessor on a field of 16 bytes: the array with those bytes. *)
Lemma UUID_populated (w : @World (google_uuid fault)) :
  length (ID (self w)) = 16 ->
  exists v, fst (UUID.UUID w) = (v, None) /\ uuid.bytes v = ID (self w).
Proof.
  intro H. rewrite UUID_unfold. simpl FromBytes; cbn [fst].
  destruct (FromBytes_16 _ H) as [v [E Hv]].
  exists v. rewrite E. split; [reflexivity | exact Hv].
Qed.

(** The hook on a field of any length but 16, when the generator produces
    [v] and the marshaller encodes it: one block is read, stamped and
    stored. *)
Lemma BeforeCreate_generates (w : @World (google_uuid fault)) (v : uuid.UUID) :
  length (ID (self w)) <> 16 ->
  fst (uuid.New (rander w)) = inl v ->
  snd (uuid.MarshalBinary fault v) = None ->
  UUID.BeforeCreate w =
    (Return None, world fault (uuid.bytes v) (fun n => rander w (S n))).
Proof.
  intros H Hv Hm.
  change (fst (@New (google_uuid fault) (rander w)) = inl v) in Hv.
  change (snd (@MarshalBinary (google_uuid fault) v) = None) in Hm.
  rewrite (BeforeCreate_unpopulated w H), Hv, Hm.
  unfold world. do 2 f_equal. exact (New_reader (rander w)).
Qed.

(** The hook when the generator fails: a panic, the field as it was. *)
Lemma BeforeCreate_panics (w : @World (google_uuid fault)) :
  length (ID (self w)) <> 16 ->
  rander w 0 = None ->
  UUID.BeforeCreate w =
    (@Panic (google_uuid fault) uuid.ReaderFailed,
     world fault (ID (self w)) (fun n => rander w (S n))).
Proof.
  intros H Hr. pose proof (New_panics _ Hr) as Hp.
  change (fst (@New (google_uuid fault) (rander w)) = inr uuid.ReaderFailed)
    in Hp.
  rewrite (BeforeCreate_unpopulated w H), Hp.
  unfold world. do 2 f_equal.
  - destruct w as [[id] r]. reflexivity.
  - exact (New_reader (rander w)).
Qed.

(** A hook that returned [nil] has left 16 bytes in the field. *)
Lemma BeforeCreate_nil_populates (w : @World (google_uuid fault)) :
  fst (UUID.BeforeCreate w) = Return None ->
  length (ID (self (snd (UUID.BeforeCreate w)))) = 16.
Proof.
  destruct (Nat.eq_dec (length (ID (self w))) 16) as [H|H].
  - rewrite (BeforeCreate_populated w H). intros _. exact H.
  - rewrite (BeforeCreate_unpopulated w H).
    destruct (fst (New (rander w))) as [v|p]; [|discriminate].
    destruct (snd (MarshalBinary v)); [discriminate|].
    intros _. reflexivity.
Qed.

(** A hook that did not return [nil] has left the field as it was, and the
    field does not hold 16 bytes. *)
Lemma BeforeCreate_not_nil_keeps (w : @World (google_uuid fault)) :
  fst (UUID.BeforeCreate w) <> Return None ->
  self (snd (UUID.BeforeCreate w)) = self w /\ length (ID (self w)) <> 16.
Proof.
  destruct (Nat.eq_dec (length (ID (self w))) 16) as [H|H].
  - rewrite (BeforeCreate_populated w H). intro D. exfalso. apply D.
    reflexivity.
  - rewrite (BeforeCreate_unpopulated w H).
    destruct (fst (New (rander w))) as [v|p].
    + destruct (snd (MarshalBinary v)).
      * intros _. split; [reflexivity | exact H].
      * intro D. exfalso. apply D. reflexivity.
    + intros _. split; [reflexivity | exact H].
Qed.

Lemma calls_on_populated (cs : list Call) (w : @World (google_uuid fault)) :
  length (ID (self w)) = 16 ->
  calls cs w = (repeat (Return None) (length cs), w).
Proof.
  intro H. induction cs as [|c cs IH].
  - reflexivity.
  - assert (E : call c w = (Return None, w)).
    { destruct c; cbn [call].
      - apply BeforeCreate_populated. exact H.
      - destruct (UUID_populated w H) as [v [Ev _]].
        rewrite Ev. cbn [snd]. f_equal.
        rewrite UUID_unfold. reflexivity. }
    rewrite (calls_cons_return c cs w (e := None)); rewrite E; [|reflexivity].
    cbn [fst snd]. rewrite IH. reflexivity.
Qed.

(** C1 (the code at an unpopulated field). On the empty field, and on a field
    of five bytes, [UUID] returns the zero array together with the package's
    length error, which is not the sentinel [ErrorNoUUID]. *)
Theorem UUID_unpopulated_returns_package_error :
  fst (UUID.UUID (world fault [] counting_reader)) =
    (uuid.Nil, Some (@PkgError (google_uuid fault) (uuid.InvalidLength 0))) /\
  fst (UUID.UUID (world fault [x01; x02; x03; x04; x05] counting_reader)) =
    (uuid.Nil, Some (@PkgError (google_uuid fault) (uuid.InvalidLength 5))) /\
  snd (fst (UUID.UUID (world fault [] counting_reader))) <> Some ErrorNoUUID.
Proof.
  split; [reflexivity|]. split; [reflexivity|].
  apply UUID_never_ErrorNoUUID.
Qed.

(** C2 (amended). On an empty field, when the generator produces a value [v]
    and the marshaller encodes it without fault, [BeforeCreate] returns [nil]
    and leaves 16 bytes in the field; [UUID] then decodes them without error
    to [v], whose version is 4, whose variant is the RFC one, and whose
    string matches [xxxxxxxx-xxxx-4xxx-[89ab]xxx-xxxxxxxxxxxx]. *)
Theorem BeforeCreate_fills_empty_field (w : @World (google_uuid fault))
  (v : uuid.UUID)
  (Hempty : ID (self w) = [])
  (Hnew : fst (uuid.New (rander w)) = inl v)
  (Hmar : snd (uuid.MarshalBinary fault v) = None) :
  exists b : list byte,
    UUID.BeforeCreate w =
      (Return None, world fault b (fun n => rander w (S n))) /\
    length b = 16 /\
    fst (UUID.UUID (snd (UUID.BeforeCreate w))) = (v, None) /\
    uuid.bytes v = b /\
    uuid.Version v = 4%N /\
    uuid.Variant v = uuid.RFC4122 /\
    v4_pattern (uuid.String v).
Proof.
  assert (Hlen : length (ID (self w)) <> 16) by (rewrite Hempty; discriminate).
  exists (uuid.bytes v).
  rewrite (BeforeCreate_generates w Hlen Hnew Hmar).
  split; [reflexivity|]. split; [reflexivity|]. split.
  - rewrite UUID_unfold. cbn [fst snd world self ID FromBytes google_uuid].
    rewrite FromBytes_bytes. reflexivity.
  - split; [reflexivity|].
    split; [exact (New_Version _ Hnew)|].
    split; [exact (New_Variant _ Hnew) | exact (New_String_pattern _ Hnew)].
Qed.

(** C4. Marshal any UUID value, store the bytes in the field, decode: the
    same value comes back, without error.  And a field holding 16 bytes [B]
    decodes to a value whose string is the textual rendering of [B] and whose
    bytes are [B]. *)
Theorem UUID_round_trip (v : uuid.UUID) (B : list byte) (r : uuid.Reader)
  (HB : length B = 16) :
  fst (UUID.UUID (world fault (fst (uuid.MarshalBinary fault v)) r))
    = (v, None) /\
  exists u,
    fst (UUID.UUID (world fault B r)) = (u, None) /\
    uuid.String u = textual_rendering B /\
    fst (uuid.MarshalBinary fault u) = B.
Proof.
  split.
  - rewrite UUID_unfold.
    cbn [fst snd world self ID uuid.MarshalBinary FromBytes google_uuid].
    rewrite FromBytes_bytes. reflexivity.
  - destruct (UUID_populated (world fault B r) HB) as [u [E Hu]].
    exists u. cbn [world self ID] in Hu.
    split; [exact E|]. split; [|exact Hu].
    rewrite String_textual_rendering, Hu. reflexivity.
Qed.

(** C6. A field of 16 bytes is taken as it is: [BeforeCreate] returns [nil]
    and changes nothing, and [UUID] decodes the very bytes.  For 16 zero
    bytes the decoded value is the nil UUID, of version 0, printed
    [00000000-0000-0000-0000-000000000000]. *)
Theorem BeforeCreate_keeps_caller_bytes (B : list byte) (r : uuid.Reader)
  (HB : length B = 16) :
  (UUID.BeforeCreate (world fault B r) = (Return None, world fault B r) /\
   exists u, fst (UUID.UUID (world fault B r)) = (u, None) /\
             uuid.bytes u = B) /\
  (UUID.BeforeCreate (world fault zero16 r)
     = (Return None, world fault zero16 r) /\
   fst (UUID.UUID (world fault zero16 r)) = (uuid.Nil, None) /\
   uuid.Version uuid.Nil = 0%N /\
   uuid.String uuid.Nil = "00000000-0000-0000-0000-000000000000"%string).
Proof.
  split.
  - split.
    + apply BeforeCreate_populated. exact HB.
    + apply (UUID_populated (world fault B r)). exact HB.
  - repeat split.
Qed.

(** C7. On a field of 16 bytes, whatever they are, [UUID] returns a nil
    error. *)
Theorem UUID_succeeds_on_16_bytes (w : @World (google_uuid fault))
  (Hlen : length (ID (self w)) = 16) :
  snd (fst (UUID.UUID w)) = None.
Proof.
  destruct (UUID_populated w Hlen) as [v [E _]]. rewrite E. reflexivity.
Qed.

(** C9 (amended). [BeforeCreate] returns a nil error, and the field then
    holds 16 bytes, whenever the field already held 16 bytes, or the
    generator produces a value and the marshaller encodes it without
    fault. *)
Theorem BeforeCreate_never_fails (w : @World (google_uuid fault))
  (Hlib : length (ID (self w)) = 16 \/
          exists v, fst (uuid.New (rander w)) = inl v /\
                    snd (uuid.MarshalBinary fault v) = None) :
  fst (UUID.BeforeCreate w) = Return None /\
  length (ID (self (snd (UUID.BeforeCreate w)))) = 16.
Proof.
  destruct (Nat.eq_dec (length (ID (self w))) 16) as [H|H].
  - rewrite (BeforeCreate_populated w H). split; [reflexivity | exact H].
  - destruct Hlib as [D | [v [Hnew Hmar]]]; [contradiction|].
    rewrite (BeforeCreate_generates w H Hnew Hmar). split; reflexivity.
Qed.


(** X5. Once a call of [BeforeCreate] has returned [nil], the record is
    settled: every later call, hook or accessor, returns a nil error and
    leaves the field and the random reader as that call left them.  In
    particular a hook that succeeded does not generate again. *)
Theorem first_hook_settles_record (cs : list Call)
  (w : @World (google_uuid fault))
  (Hnil : fst (UUID.BeforeCreate w) = Return None) :
  calls (CallBeforeCreate :: cs) w =
    (repeat (Return None) (S (length cs)), snd (UUID.BeforeCreate w)).
Proof.
  rewrite (calls_cons_return CallBeforeCreate cs w (e := None));
    [|exact Hnil].
  cbn [call].
  rewrite (calls_on_populated cs _ (BeforeCreate_nil_populates w Hnil)).
  reflexivity.
Qed.

(** X6. The hook followed by the accessor, from any state.  Either the hook
    returned [nil], and the accessor then returns a nil error and the value
    holding the bytes now in the field: the caller's bytes when the field
    held 16 of them, otherwise those of the UUID just generated.  Or the hook
    did not return [nil] (it returned an error or panicked), the field is as
    it was, and the accessor returns the zero UUID and the length error. *)
Theorem hook_then_accessor (w : @World (google_uuid fault)) :
  (fst (UUID.BeforeCreate w) = Return None /\
   exists v : uuid.UUID,
     fst (UUID.UUID (snd (UUID.BeforeCreate w))) = (v, None) /\
     uuid.bytes v = ID (self (snd (UUID.BeforeCreate w))) /\
     if Nat.eqb (length (ID (self w))) 16
     then uuid.bytes v = ID (self w)
     else fst (uuid.New (rander w)) = inl v) \/
  (fst (UUID.BeforeCreate w) <> Return None /\
   self (snd (UUID.BeforeCreate w)) = self w /\
   fst (UUID.UUID (snd (UUID.BeforeCreate w))) =
     (uuid.Nil,
      Some (@PkgError (google_uuid fault)
              (uuid.InvalidLength (length (ID (self w))))))).
Proof.
  assert (Dec : fst (UUID.BeforeCreate w) = Return None \/
                fst (UUID.BeforeCreate w) <> Return None).
  { destruct (fst (UUID.BeforeCreate w)) as [[e|]|p];
      [right; discriminate | left; reflexivity | right; discriminate]. }
  destruct Dec as [Hnil | Hnot].
  - left. split; [exact Hnil|].
    pose proof (BeforeCreate_nil_populates w Hnil) as H16.
    destruct (UUID_populated _ H16) as [v [E Hv]].
    exists v. split; [exact E|]. split; [exact Hv|].
    destruct (Nat.eq_dec (length (ID (self w))) 16) as [H|H].
    + rewrite (length_16_eqb _ H).
      rewrite (BeforeCreate_populated w H) in Hv. exact Hv.
    + rewrite (length_not_16_eqb _ H).
      rewrite (BeforeCreate_unpopulated w H) in Hnil, Hv.
      destruct (fst (New (rander w))) as [v'|p] eqn:Hnew; [|discriminate].
      destruct (snd (MarshalBinary v')) eqn:Hm; [discriminate|].
      cbn [snd self ID fst MarshalBinary google_uuid uuid.MarshalBinary] in Hv.
      rewrite (bytes_inj Hv). exact Hnew.
  - right. destruct (BeforeCreate_not_nil_keeps w Hnot) as [Hs H].
    split; [exact Hnot|]. split; [exact Hs|].
    rewrite <- Hs in H. rewrite (UUID_unpopulated _ H), Hs. reflexivity.
Qed.

(** X7. A field of any length other than 16 (five bytes, or the 36 bytes of
    a UUID written as text) is not kept by [BeforeCreate] when the generator
    produces a value [v] and the marshaller encodes it without fault: the
    field is replaced by the 16 bytes of [v], a version-4 UUID of the RFC
    variant, one read of the random reader is used, and [nil] is returned. *)
Theorem BeforeCreate_replaces_wrong_length (w : @World (google_uuid fault))
  (v : uuid.UUID)
  (Hlen : length (ID (self w)) <> 16)
  (Hnew : fst (uuid.New (rander w)) = inl v)
  (Hmar : snd (uuid.MarshalBinary fault v) = None) :
  UUID.BeforeCreate w =
    (Return None, world fault (uuid.bytes v) (fun n => rander w (S n))) /\
  ID (self (snd (UUID.BeforeCreate w))) <> ID (self w) /\
  length (ID (self (snd (UUID.BeforeCreate w)))) = 16 /\
  uuid.Version v = 4%N /\
  uuid.Variant v = uuid.RFC4122.
Proof.
  rewrite (BeforeCreate_generates w Hlen Hnew Hmar).
  split; [reflexivity|]. split.
  - intro E. apply Hlen. rewrite <- E. reflexivity.
  - split; [reflexivity|].
    split; [exact (New_Version _ Hnew) | exact (New_Variant _ Hnew)].
Qed.

(** X8. The accessor tells populated fields apart: two fields of 16 bytes
    that differ decode to different UUID values. *)
Theorem UUID_distinguishes_fields (w1 w2 : @World (google_uuid fault))
  (H1 : length (ID (self w1)) = 16)
  (H2 : length (ID (self w2)) = 16)
  (Hdiff : ID (self w1) <> ID (self w2)) :
  fst (fst (UUID.UUID w1)) <> fst (fst (UUID.UUID w2)).
Proof.
  destruct (UUID_populated w1 H1) as [v1 [E1 B1]].
  destruct (UUID_populated w2 H2) as [v2 [E2 B2]].
  rewrite E1, E2. cbn [fst]. intro E. apply Hdiff.
  rewrite <- B1, <- B2, E. reflexivity.
Qed.

(** X9. What the accessor returns, for every field: on 16 bytes a nil error
    and the value with those bytes; on any other length the zero UUID and the
    package's length error, which carries the length found. *)
Theorem UUID_result_by_length (w : @World (google_uuid fault)) :
  (Nat.eqb (length (ID (self w))) 16 = true /\
   snd (fst (UUID.UUID w)) = None /\
   uuid.bytes (fst (fst (UUID.UUID w))) = ID (self w)) \/
  (Nat.eqb (length (ID (self w))) 16 = false /\
   fst (UUID.UUID w) =
     (uuid.Nil,
      Some (@PkgError (google_uuid fault)
              (uuid.InvalidLength (length (ID (self w))))))).
Proof.
  destruct (Nat.eq_dec (length (ID (self w))) 16) as [H|H].
  - left. split; [apply length_16_eqb; exact H|].
    destruct (UUID_populated w H) as [v [E Hv]].
    rewrite E. split; [reflexivity | exact Hv].
  - right. split; [apply length_not_16_eqb; exact H|].
    apply UUID_unpopulated. exact H.
Qed.

End Package.

(* ================================================================== *)
(** ** Where the library fails *)

(** On an empty field with a random reader that fails, [BeforeCreate] does
    not return: the generator's panic unwinds through it, and the field is
    still empty. *)
Lemma BeforeCreate_empty_field_generator_fails :
  UUID.BeforeCreate (world no_fault [] failing_reader) =
    (@Panic (google_uuid no_fault) uuid.ReaderFailed,
     world no_fault [] failing_reader) /\
  length (ID (self (snd (UUID.BeforeCreate
                           (world no_fault [] failing_reader))))) = 0.
Proof. split; reflexivity. Qed.

(** The generator fails to produce a value on a field of five bytes:
    [BeforeCreate] returns no error to its caller, it panics. *)
Lemma BeforeCreate_generator_failure_is_not_returned :
  fst (uuid.New failing_reader) = inr uuid.ReaderFailed /\
  fst (UUID.BeforeCreate
         (world no_fault [x01; x02; x03; x04; x05] failing_reader)) =
    @Panic (google_uuid no_fault) uuid.ReaderFailed.
Proof. split; reflexivity. Qed.

(** Two starting states from which [BeforeCreate] does not return [nil]:
    with a marshaller that reports a fault it returns that error, the error
    branch of lines 43-45 being taken; with a reader that fails it
    panics. *)
Lemma BeforeCreate_can_fail :
  fst (UUID.BeforeCreate (world always_fault [] counting_reader)) =
    Return (Some (@PkgError (google_uuid always_fault) uuid.EncodingFault)) /\
  fst (UUID.BeforeCreate (world no_fault [x2a] failing_reader)) =
    @Panic (google_uuid no_fault) uuid.ReaderFailed.
Proof. split; reflexivity. Qed.


(* ================================================================== *)
(** ** Concrete runs *)

Lemma BeforeCreate_respects_populated_witness :
  length (ID (self (world no_fault zero16 counting_reader))) = 16 /\
  UUID.BeforeCreate (world no_fault zero16 counting_reader)
    = (Return None, world no_fault zero16 counting_reader) /\
  UUID.BeforeCreate
    (snd (UUID.BeforeCreate (world no_fault zero16 counting_reader)))
    = UUID.BeforeCreate (world no_fault zero16 counting_reader).
Proof.
  split; [reflexivity|].
  apply (BeforeCreate_respects_populated
           (world no_fault zero16 counting_reader)).
  reflexivity.
Defined.

Lemma BeforeCreate_propagates_error_witness :
  (fst (UUID.BeforeCreate (world always_fault [] counting_reader))
     = Return (Some (@PkgError (google_uuid always_fault) uuid.EncodingFault)) /\
   self (snd (UUID.BeforeCreate (world always_fault [] counting_reader)))
     = self (world always_fault [] counting_reader)) /\
  (fst (UUID.BeforeCreate (world no_fault [] failing_reader))
     = @Panic (google_uuid no_fault) uuid.ReaderFailed /\
   self (snd (UUID.BeforeCreate (world no_fault [] failing_reader)))
     = self (world no_fault [] failing_reader)).
Proof.
  split.
  - apply (@BeforeCreate_propagates_error (google_uuid always_fault)
             (world always_fault [] counting_reader)).
    + simpl. discriminate.
    + eapply (@marshaller_failed (google_uuid always_fault)); reflexivity.
  - apply (@BeforeCreate_propagates_error (google_uuid no_fault)
             (world no_fault [] failing_reader)).
    + simpl. discriminate.
    + apply (@generator_failed (google_uuid no_fault)). reflexivity.
Defined.

Lemma BeforeCreate_fills_empty_field_witness :
  exists (v : uuid.UUID) (b : list byte),
    UUID.BeforeCreate (world no_fault [] counting_reader)
      = (Return None, world no_fault b (fun n => counting_reader (S n))) /\
    length b = 16 /\
    fst (UUID.UUID (snd (UUID.BeforeCreate (world no_fault [] counting_reader))))
      = (v, None) /\
    uuid.bytes v = b /\
    uuid.Version v = 4%N /\
    uuid.Variant v = uuid.RFC4122 /\
    v4_pattern (uuid.String v).
Proof.
  eexists.
  apply (@BeforeCreate_fills_empty_field no_fault
           (world no_fault [] counting_reader)).
  - reflexivity.
  - reflexivity.
  - reflexivity.
Defined.

Lemma UUID_round_trip_witness :
  fst (UUID.UUID (world no_fault
                    (fst (uuid.MarshalBinary no_fault (counting_block 7)))
                    counting_reader)) = (counting_block 7, None) /\
  exists u,
    fst (UUID.UUID (world no_fault (uuid.bytes (counting_block 7))
                          counting_reader)) = (u, None) /\
    uuid.String u = textual_rendering (uuid.bytes (counting_block 7)) /\
    fst (uuid.MarshalBinary no_fault u) = uuid.bytes (counting_block 7).
Proof.
  apply (@UUID_round_trip no_fault (counting_block 7)
           (uuid.bytes (counting_block 7)) counting_reader).
  reflexivity.
Defined.

Lemma BeforeCreate_keeps_caller_bytes_witness :
  let B := uuid.bytes (counting_block 200) in
  let r := counting_reader in
  (UUID.BeforeCreate (world always_fault B r)
     = (Return None, world always_fault B r) /\
   exists u, fst (UUID.UUID (world always_fault B r)) = (u, None) /\
             uuid.bytes u = B) /\
  (UUID.BeforeCreate (world always_fault zero16 r)
     = (Return None, world always_fault zero16 r) /\
   fst (UUID.UUID (world always_fault zero16 r)) = (uuid.Nil, None) /\
   uuid.Version uuid.Nil = 0%N /\
   uuid.String uuid.Nil = "00000000-0000-0000-0000-000000000000"%string).
Proof.
  intros B r.
  apply (@BeforeCreate_keeps_caller_bytes always_fault B r).
  reflexivity.
Defined.

Lemma UUID_succeeds_on_16_bytes_witness :
  snd (fst (UUID.UUID (world no_fault (repeat xff 16) failing_reader))) = None.
Proof.
  apply (@UUID_succeeds_on_16_bytes no_fault
           (world no_fault (repeat xff 16) failing_reader)).
  reflexivity.
Defined.

Lemma BeforeCreate_never_fails_witness :
  (fst (UUID.BeforeCreate (world no_fault [x01; x02] counting_reader))
     = Return None /\
   length (ID (self (snd (UUID.BeforeCreate
                            (world no_fault [x01; x02] counting_reader)))))
     = 16) /\
  (fst (UUID.BeforeCreate (world always_fault zero16 failing_reader))
     = Return None /\
   length (ID (self (snd (UUID.BeforeCreate
                            (world always_fault zero16 failing_reader)))))
     = 16).
Proof.
  split.
  - apply (@BeforeCreate_never_fails no_fault
             (world no_fault [x01; x02] counting_reader)).
    right. eexists. split; reflexivity.
  - apply (@BeforeCreate_never_fails always_fault
             (world always_fault zero16 failing_reader)).
    left. reflexivity.
Defined.


Lemma BeforeCreate_error_condition_witness :
  fst (UUID.BeforeCreate (world always_fault [] counting_reader))
    = Return (Some (@PkgError (google_uuid always_fault) uuid.EncodingFault)).
Proof.
  apply (proj2 (@BeforeCreate_error_condition (google_uuid always_fault)
                  (world always_fault [] counting_reader)
                  (@PkgError (google_uuid always_fault) uuid.EncodingFault))).
  split; [reflexivity|].
  eexists. exists uuid.EncodingFault. repeat split.
Defined.

Lemma populated_record_is_stable_witness :
  let w := world no_fault zero16 counting_reader in
  snd (calls [CallUUID; CallBeforeCreate; CallBeforeCreate; CallUUID] w) = w.
Proof.
  intro w.
  apply (populated_record_is_stable
           [CallUUID; CallBeforeCreate; CallBeforeCreate; CallUUID] w).
  reflexivity.
Defined.

Lemma first_hook_settles_record_witness :
  let w := world no_fault [] counting_reader in
  calls [CallBeforeCreate; CallUUID; CallBeforeCreate; CallUUID] w =
    (repeat (Return None) 4, snd (UUID.BeforeCreate w)).
Proof.
  intro w.
  apply (@first_hook_settles_record no_fault
           [CallUUID; CallBeforeCreate; CallUUID] w).
  reflexivity.
Defined.

Lemma BeforeCreate_replaces_wrong_length_witness :
  let w := world no_fault [x01; x02; x03; x04; x05] counting_reader in
  exists v : uuid.UUID,
    UUID.BeforeCreate w =
      (Return None, world no_fault (uuid.bytes v) (fun n => rander w (S n))) /\
    ID (self (snd (UUID.BeforeCreate w))) <> ID (self w) /\
    length (ID (self (snd (UUID.BeforeCreate w)))) = 16 /\
    uuid.Version v = 4%N /\
    uuid.Variant v = uuid.RFC4122.
Proof.
  intro w. eexists.
  apply (@BeforeCreate_replaces_wrong_length no_fault w).
  - simpl. discriminate.
  - reflexivity.
  - reflexivity.
Defined.

Lemma UUID_distinguishes_fields_witness :
  fst (fst (UUID.UUID (world no_fault zero16 counting_reader))) <>
  fst (fst (UUID.UUID (world no_fault (repeat xff 16) counting_reader))).
Proof.
  apply (@UUID_distinguishes_fields no_fault
           (world no_fault zero16 counting_reader)
           (world no_fault (repeat xff 16) counting_reader)).
  - reflexivity.
  - reflexivity.
  - simpl. discriminate.
Defined.
